(** * Google Calendar MCP server: the API client and the tool facade

    A shallow embedding of [src/client.ts] (class [GoogleCalendarClient] and
    the module-level rate-gate timestamp) and of the tool handlers of the
    facade, together with the properties of the request life cycle:
    rate gate, single retry on 429, error mapping, empty-body success,
    query-parameter construction and the partial-update merge.

    Asynchronous code is embedded as a tree of effects ([Async]); two
    semantics are given for it: a cooperative scheduler with a logical
    clock ([run]), and the run of one awaited task ([alone]); they are shown
    to agree on a task that runs with nothing else pending. *)

From Stdlib Require Import ZArith List Bool Ascii String Lia.
From stdpp Require Import base option list strings pretty gmap fin_maps.

Local Open Scope string_scope.
Local Open Scope list_scope.
Local Open Scope Z_scope.

(** ** JavaScript values used by the client *)

(** The result of [parseInt(s, 10)] and of its product with 1000: a double
    that is an integer the double holds exactly ([Num z], with [z] within
    2^53 in magnitude), [NaN], or a double beyond that range (rounded, or
    infinite), of which only the fact that it is beyond is kept. *)
Inductive JSNum : Type :=
| Num (z : Z)
| NaN
| Beyond.

Definition MAX_SAFE : Z := 9007199254740992.

(** The double of an integer. *)
Definition double_of (z : Z) : JSNum :=
  if (- MAX_SAFE <=? z) && (z <=? MAX_SAFE) then Num z else Beyond.

Definition JSNum_mul (a : JSNum) (b : Z) : JSNum :=
  match a with
  | Num z => double_of (z * b)
  | NaN => NaN
  | Beyond => Beyond
  end.

(** A JavaScript number that is only tested and printed: whether it is
    truthy (neither 0 nor [NaN]) and what [toString()] gives for it. *)
Record JSNumber : Type := mkNumber {
  num_truthy : bool;
  num_toString : string
}.

(** JSON data: bodies sent and parsed results. *)
#[warnings="-register-all"]
Inductive Json : Type :=
| JNull
| JBool (b : bool)
| JNumber (n : Z)
| JStr (s : string)
| JArr (items : list Json)
| JObj (fields : list (string * Json)).

(** A thrown [Error]: only its message matters here. *)
Record Error : Type := mkError { message : string }.

(** Truthiness of an optional string ([undefined], [null] and the empty
    string are falsy). *)
Definition truthy_str (s : option string) : bool :=
  match s with
  | Some EmptyString => false
  | Some _ => true
  | None => false
  end.

(** Truthiness of an optional number ([undefined], [0] and [NaN] are
    falsy). *)
Definition truthy_num (n : option JSNumber) : bool :=
  match n with
  | Some x => num_truthy x
  | None => false
  end.

(** *** [parseInt(s, 10)]

    The strings it is given here are header values: byte strings, one code
    unit per byte. *)

(** The white space [parseInt] skips, among the code units below 256. *)
Definition is_space (a : ascii) : bool :=
  let n := nat_of_ascii a in
  (Nat.eqb n 32 || Nat.eqb n 9 || Nat.eqb n 10 || Nat.eqb n 11
   || Nat.eqb n 12 || Nat.eqb n 13 || Nat.eqb n 160)%bool.

Fixpoint skip_spaces (s : string) : string :=
  match s with
  | String a r => if is_space a then skip_spaces r else s
  | EmptyString => EmptyString
  end.

Definition digit_of (a : ascii) : option Z :=
  let n := Z.of_nat (nat_of_ascii a) in
  if ((48 <=? n) && (n <=? 57))%bool then Some (n - 48) else None.

(** The longest prefix of decimal digits, [None] when there is none. *)
Fixpoint leading_digits (acc : option Z) (s : string) : option Z :=
  match s with
  | String a r =>
      match digit_of a with
      | Some d => leading_digits (Some (10 * default 0 acc + d)) r
      | None => acc
      end
  | EmptyString => acc
  end.

Definition parseInt (s : string) : JSNum :=
  let s := skip_spaces s in
  let '(sign, s) :=
    match s with
    | String "-"%char r => (-1, r)
    | String "+"%char r => (1, r)
    | _ => (1, s)
    end in
  match leading_digits None s with
  | Some n => double_of (sign * n)
  | None => NaN
  end.

(** ** HTTP data *)

(** A template-literal path: literal text and [encodeURIComponent] of an
    identifier. *)
Inductive PathPart : Type :=
| Lit (s : string)
| Encoded (s : string).

Record URL : Type := mkURL {
  url_base : string;
  url_path : list PathPart;
  searchParams : list (string * string)
}.

(** A JavaScript object with string keys, in insertion order. *)
Definition Obj (V : Type) : Type := list (string * V).

Fixpoint obj_set {V} (o : Obj V) (k : string) (v : V) : Obj V :=
  match o with
  | [] => [(k, v)]
  | (k', v') :: r =>
      if String.eqb k' k then (k, v) :: r else (k', v') :: obj_set r k v
  end.

Fixpoint obj_get {V} (o : Obj V) (k : string) : option V :=
  match o with
  | [] => None
  | (k', v') :: r => if String.eqb k' k then Some v' else obj_get r k
  end.

(** The value handed to [JSON.stringify] for the request body. *)
Inductive Payload : Type :=
| EventBody (ev : gmap string Json)
| JsonBody (j : Json).

(** The [options] of a call: [method], [headers] and, when a body was
    given, [body]. *)
Record RequestInit : Type := mkInit {
  init_method : string;
  init_headers : Obj string;
  init_body : option Payload
}.

(** What [fetch(url.toString(), options)] receives. *)
Record Request : Type := mkRequest {
  req_url : URL;
  req_options : RequestInit
}.

Record Response : Type := mkResponse {
  status : Z;
  headers : Obj string;
  body_text : string
}.

(** The header fields of a response are kept as received. *)

Definition lower (a : ascii) : ascii :=
  let n := nat_of_ascii a in
  if (Nat.leb 65 n && Nat.leb n 90)%bool then ascii_of_nat (n + 32) else a.

Fixpoint lowercase (s : string) : string :=
  match s with
  | String a r => String (lower a) (lowercase r)
  | EmptyString => EmptyString
  end.

(** The white space a header value is stripped of: tab, line feed,
    carriage return, space. *)
Definition is_http_space (a : ascii) : bool :=
  let n := nat_of_ascii a in
  (Nat.eqb n 9 || Nat.eqb n 10 || Nat.eqb n 13 || Nat.eqb n 32)%bool.

Fixpoint strip_left (s : string) : string :=
  match s with
  | String a r => if is_http_space a then strip_left r else s
  | EmptyString => EmptyString
  end.

Fixpoint strip_right (s : string) : string :=
  match s with
  | String a r =>
      match strip_right r with
      | EmptyString => if is_http_space a then EmptyString else String a EmptyString
      | r' => String a r'
      end
  | EmptyString => EmptyString
  end.

Definition strip (s : string) : string := strip_right (strip_left s).

(** The values of the fields whose name is [name], whatever the case. *)
Fixpoint header_values (hs : Obj string) (name : string) : list string :=
  match hs with
  | [] => []
  | (k, v) :: rest =>
      if String.eqb (lowercase k) (lowercase name)
      then strip v :: header_values rest name
      else header_values rest name
  end.

Fixpoint join_values (v : string) (vs : list string) : string :=
  match vs with
  | [] => v
  | v' :: rest => v +:+ ", " +:+ join_values v' rest
  end.

(** [response.headers.get(name)]: the name is matched whatever its case,
    the values are stripped of surrounding white space and several fields
    of one name are joined with a comma and a space. *)
Definition headers_get (r : Response) (name : string) : option string :=
  match header_values (headers r) name with
  | [] => None
  | v :: vs => Some (join_values v vs)
  end.

(** [response.ok] *)
Definition ok (r : Response) : bool := (200 <=? status r) && (status r <=? 299).

Definition BASE_URL : string := "https://www.googleapis.com/calendar/v3".
Definition RATE_LIMIT_DELAY_MS : Z := 100.

(** The promise of a [fetch] settles with a response, or rejects on a
    network failure. *)
Inductive FetchResult : Type :=
| Responded (r : Response)
| NetworkError (e : Error).

(** [response.json()] yields the parsed value, or rejects with the error
    of the parser. *)
Inductive ParseResult : Type :=
| Parsed (j : Json)
| ParseError (e : Error).

(** ** Asynchronous programs

    An [async] function is a tree of the effects it performs; every node
    that suspends the task ([SetTimeout], [Fetch]) carries its
    continuation. *)
Inductive Async (A : Type) : Type :=
| Return (a : A)
| Throw (e : Error)
| DateNow (k : Z -> Async A)
| ReadLast (k : Z -> Async A)
| WriteLast (t : Z) (k : Async A)
| SetTimeout (ms : JSNum) (k : Async A)
| Fetch (req : Request) (k : FetchResult -> Async A)
| ResponseText (r : Response) (k : string -> Async A)
| ResponseJson (r : Response) (k : ParseResult -> Async A).

Arguments Return {A} a.
Arguments Throw {A} e.
Arguments DateNow {A} k.
Arguments ReadLast {A} k.
Arguments WriteLast {A} t k.
Arguments SetTimeout {A} ms k.
Arguments Fetch {A} req k.
Arguments ResponseText {A} r k.
Arguments ResponseJson {A} r k.

Fixpoint bind {A B} (p : Async A) (f : A -> Async B) : Async B :=
  match p with
  | Return a => f a
  | Throw e => Throw e
  | DateNow k => DateNow (fun t => bind (k t) f)
  | ReadLast k => ReadLast (fun t => bind (k t) f)
  | WriteLast t k => WriteLast t (bind k f)
  | SetTimeout ms k => SetTimeout ms (bind k f)
  | Fetch req k => Fetch req (fun r => bind (k r) f)
  | ResponseText r k => ResponseText r (fun s => bind (k s) f)
  | ResponseJson r k => ResponseJson r (fun j => bind (k j) f)
  end.

(** [try { p } catch (error) { h error }] *)
Fixpoint try_catch {A} (p : Async A) (h : Error -> Async A) : Async A :=
  match p with
  | Return a => Return a
  | Throw e => h e
  | DateNow k => DateNow (fun t => try_catch (k t) h)
  | ReadLast k => ReadLast (fun t => try_catch (k t) h)
  | WriteLast t k => WriteLast t (try_catch k h)
  | SetTimeout ms k => SetTimeout ms (try_catch k h)
  | Fetch req k => Fetch req (fun r => try_catch (k r) h)
  | ResponseText r k => ResponseText r (fun s => try_catch (k s) h)
  | ResponseJson r k => ResponseJson r (fun j => try_catch (k j) h)
  end.

Declare Scope async_scope.
Delimit Scope async_scope with async.
Bind Scope async_scope with Async.
Notation "'await' x <- p ; q" := (bind p (fun x => q))
  (at level 10, x name, p at level 100, q at level 200) : async_scope.
Notation "'await_' p ; q" := (bind p (fun _ => q))
  (at level 10, p at level 100, q at level 200) : async_scope.

Definition date_now : Async Z := DateNow Return.
Definition read_lastRequestTime : Async Z := ReadLast Return.
Definition write_lastRequestTime (t : Z) : Async unit := WriteLast t (Return tt).
(** [await new Promise(resolve => setTimeout(resolve, ms))] *)
Definition sleep (ms : JSNum) : Async unit := SetTimeout ms (Return tt).
(** [await fetch(url.toString(), options)] *)
Definition fetch (req : Request) : Async Response :=
  Fetch req (fun res => match res with
                        | Responded r => Return r
                        | NetworkError e => Throw e
                        end).
Definition response_text (r : Response) : Async string := ResponseText r Return.

(** [await response.json()]: a body that is not JSON rejects with the
    error of the parser. *)
Definition response_json (r : Response) : Async Json :=
  ResponseJson r (fun parsed => match parsed with
                                | Parsed j => Return j
                                | ParseError e => Throw e
                                end).

(** ** The client *)

Record GoogleCalendarClient : Type := mkClient { accessToken : string }.

(** [new GoogleCalendarClient(accessToken)]; a missing argument is
    [undefined], here [None]. *)
Definition constructor (token : option string) : Error + GoogleCalendarClient :=
  if negb (truthy_str token)
  then inl (mkError "GOOGLE_ACCESS_TOKEN is required")
  else inr (mkClient (default "" token)).

Definition rateLimit : Async unit :=
  (await now <- date_now;
   await last <- read_lastRequestTime;
   let elapsed := now - last in
   await_ (if elapsed <? RATE_LIMIT_DELAY_MS
           then sleep (Num (RATE_LIMIT_DELAY_MS - elapsed))
           else Return tt);
   await now' <- date_now;
   write_lastRequestTime now')%async.

(** [url.searchParams.append] of every entry whose value is neither
    [undefined] nor [null]. *)
Definition append_params (params : Obj (option string)) : list (string * string) :=
  omap (fun kv => match snd kv with
                  | Some v => Some (fst kv, v)
                  | None => None
                  end) params.

(** [new URL(`${BASE_URL}${path}`)] with the parameters appended. The path
    is kept as the template gives it: what the URL parser does to it
    afterwards (it removes dot segments) is not modelled, and no statement
    below is about the path as it is finally fetched. *)
Definition build_url (path : list PathPart) (params : option (Obj (option string))) : URL :=
  mkURL BASE_URL path
        (match params with
         | Some ps => append_params ps
         | None => []
         end).

(** Every payload the client is given is an object, hence truthy: the
    body is attached exactly when one was passed. *)
Definition build_options (this : GoogleCalendarClient) (method : string)
    (body : option Payload) : RequestInit :=
  mkInit method
         [("Authorization", "Bearer " +:+ accessToken this);
          ("Content-Type", "application/json")]
         body.

Definition retry_delay (response : Response) : JSNum :=
  let retryAfter := headers_get response "Retry-After" in
  if truthy_str retryAfter
  then JSNum_mul (parseInt (default "" retryAfter)) 1000
  else Num 1000.

Definition error_message (response : Response) (errorText : string) : string :=
  "Google Calendar API error (" +:+ pretty (status response) +:+ "): " +:+ errorText.

Definition request (this : GoogleCalendarClient) (method : string)
    (path : list PathPart) (body : option Payload)
    (params : option (Obj (option string))) : Async Json :=
  (await_ rateLimit;
   let url := build_url path params in
   let options := build_options this method body in
   let req := mkRequest url options in
   await response <- fetch req;
   await response <- (if status response =? 429
                      then (await_ sleep (retry_delay response); fetch req)
                      else Return response);
   if negb (ok response)
   then (await errorText <- response_text response;
         Throw (mkError (error_message response errorText)))
   else if status response =? 204
        then Return (JObj [])
        else response_json response)%async.

(** *** The ten operations *)

Definition listCalendars (this : GoogleCalendarClient) (pageToken : option string)
  : Async Json :=
  let params : Obj (option string) := [] in
  let params := if truthy_str pageToken
                then obj_set params "pageToken" pageToken else params in
  request this "GET" [Lit "/users/me/calendarList"] None (Some params).

Definition getCalendar (this : GoogleCalendarClient) (calendarId : string)
  : Async Json :=
  request this "GET" [Lit "/calendars/"; Encoded calendarId] None None.

Definition bool_toString (b : bool) : string := if b then "true" else "false".

Definition listEvents (this : GoogleCalendarClient) (calendarId : string)
    (timeMin timeMax q : option string) (maxResults : option JSNumber)
    (pageToken : option string) (singleEvents : option bool)
    (orderBy : option string) : Async Json :=
  let params : Obj (option string) := [] in
  let params := if truthy_str timeMin
                then obj_set params "timeMin" timeMin else params in
  let params := if truthy_str timeMax
                then obj_set params "timeMax" timeMax else params in
  let params := if truthy_str q then obj_set params "q" q else params in
  let params := if truthy_num maxResults
                then obj_set params "maxResults" (num_toString <$> maxResults)
                else params in
  let params := if truthy_str pageToken
                then obj_set params "pageToken" pageToken else params in
  let params := match singleEvents with
                | Some b => obj_set params "singleEvents" (Some (bool_toString b))
                | None => params
                end in
  let params := if truthy_str orderBy
                then obj_set params "orderBy" orderBy else params in
  request this "GET" [Lit "/calendars/"; Encoded calendarId; Lit "/events"]
          None (Some params).

Definition getEvent (this : GoogleCalendarClient) (calendarId eventId : string)
  : Async Json :=
  request this "GET"
          [Lit "/calendars/"; Encoded calendarId; Lit "/events/"; Encoded eventId]
          None None.

Definition createEvent (this : GoogleCalendarClient) (calendarId : string)
    (event : gmap string Json) : Async Json :=
  request this "POST" [Lit "/calendars/"; Encoded calendarId; Lit "/events"]
          (Some (EventBody event)) None.

Definition updateEvent (this : GoogleCalendarClient) (calendarId eventId : string)
    (event : gmap string Json) : Async Json :=
  request this "PUT"
          [Lit "/calendars/"; Encoded calendarId; Lit "/events/"; Encoded eventId]
          (Some (EventBody event)) None.

Definition deleteEvent (this : GoogleCalendarClient) (calendarId eventId : string)
  : Async unit :=
  (await_ request this "DELETE"
            [Lit "/calendars/"; Encoded calendarId; Lit "/events/"; Encoded eventId]
            None None;
   Return tt)%async.

Definition quickAddEvent (this : GoogleCalendarClient) (calendarId text : string)
  : Async Json :=
  let params : Obj (option string) := [("text", Some text)] in
  request this "POST"
          [Lit "/calendars/"; Encoded calendarId; Lit "/events/quickAdd"]
          None (Some params).

Definition getFreeBusy (this : GoogleCalendarClient) (req : Json) : Async Json :=
  request this "POST" [Lit "/freeBusy"] (Some (JsonBody req)) None.

Definition listColors (this : GoogleCalendarClient) : Async Json :=
  request this "GET" [Lit "/colors"] None None.

(** ** The tool facade *)

(** The text of a tool result: [JSON.stringify(result, null, 2)] of a
    value, or a plain string. *)
Inductive ToolText : Type :=
| Stringified (j : Json)
| Plain (s : string).

Record ToolResult : Type := mkToolResult {
  content_text : ToolText;
  isError : bool
}.

Definition errorResult (error : Error) : ToolResult :=
  mkToolResult (Plain ("Error: " +:+ message error)) true.

(** [getClient()]: the client is built on first use from the token the
    server was registered with. *)
Definition getClient {A} (token : string)
    (k : GoogleCalendarClient -> Async A) : Async A :=
  match constructor (Some token) with
  | inl e => Throw e
  | inr c => k c
  end.

(** The arguments of [gcal_update_event]; [None] is [undefined]. *)
Record UpdateArgs : Type := mkUpdateArgs {
  u_calendarId : string;
  u_eventId : string;
  u_summary : option string;
  u_description : option string;
  u_location : option string;
  u_start : option Json;
  u_end : option Json;
  u_attendees : option Json;
  u_reminders : option Json;
  u_colorId : option string;
  u_transparency : option string;
  u_visibility : option string
}.

(** [if (x !== undefined) event.name = x] *)
Definition assign_defined (name : string) (x : option Json)
    (event : gmap string Json) : gmap string Json :=
  match x with
  | Some v => <[name := v]> event
  | None => event
  end.

(** The event object the update handler builds before the client call. *)
Definition update_event_object (a : UpdateArgs) : gmap string Json :=
  let event : gmap string Json := ∅ in
  let event := assign_defined "summary" (JStr <$> u_summary a) event in
  let event := assign_defined "description" (JStr <$> u_description a) event in
  let event := assign_defined "location" (JStr <$> u_location a) event in
  let event := assign_defined "start" (u_start a) event in
  let event := assign_defined "end" (u_end a) event in
  let event := assign_defined "attendees" (u_attendees a) event in
  let event := assign_defined "reminders" (u_reminders a) event in
  let event := assign_defined "colorId" (JStr <$> u_colorId a) event in
  let event := assign_defined "transparency" (JStr <$> u_transparency a) event in
  let event := assign_defined "visibility" (JStr <$> u_visibility a) event in
  event.

Definition gcal_update_event (token : string) (a : UpdateArgs) : Async ToolResult :=
  try_catch
    (let event := update_event_object a in
     getClient token (fun client =>
       await result <- updateEvent client (u_calendarId a) (u_eventId a) event;
       Return (mkToolResult (Stringified result) false)))%async
    (fun error => Return (errorResult error)).

Definition gcal_delete_event (token : string) (calendarId eventId : string)
  : Async ToolResult :=
  try_catch
    (getClient token (fun client =>
       await_ deleteEvent client calendarId eventId;
       Return (mkToolResult
                 (Plain ("Event " +:+ eventId +:+ " deleted successfully from calendar "
                         +:+ calendarId)) false)))%async
    (fun error => Return (errorResult error)).

Definition gcal_list_events (token : string) (calendarId : string)
    (timeMin timeMax q : option string) (maxResults : option JSNumber)
    (pageToken : option string) (singleEvents : option bool)
    (orderBy : option string) : Async ToolResult :=
  try_catch
    (getClient token (fun client =>
       await result <- listEvents client calendarId timeMin timeMax q maxResults
                                  pageToken singleEvents orderBy;
       Return (mkToolResult (Stringified result) false)))%async
    (fun error => Return (errorResult error)).

Definition gcal_list_calendars (token : string) (pageToken : option string)
  : Async ToolResult :=
  try_catch
    (getClient token (fun client =>
       await result <- listCalendars client pageToken;
       Return (mkToolResult (Stringified result) false)))%async
    (fun error => Return (errorResult error)).

Definition gcal_get_calendar (token : string) (calendarId : string)
  : Async ToolResult :=
  try_catch
    (getClient token (fun client =>
       await result <- getCalendar client calendarId;
       Return (mkToolResult (Stringified result) false)))%async
    (fun error => Return (errorResult error)).

Definition gcal_get_event (token : string) (calendarId eventId : string)
  : Async ToolResult :=
  try_catch
    (getClient token (fun client =>
       await result <- getEvent client calendarId eventId;
       Return (mkToolResult (Stringified result) false)))%async
    (fun error => Return (errorResult error)).

Definition gcal_quick_add_event (token : string) (calendarId text : string)
  : Async ToolResult :=
  try_catch
    (getClient token (fun client =>
       await result <- quickAddEvent client calendarId text;
       Return (mkToolResult (Stringified result) false)))%async
    (fun error => Return (errorResult error)).

Definition gcal_list_colors (token : string) : Async ToolResult :=
  try_catch
    (getClient token (fun client =>
       await result <- listColors client;
       Return (mkToolResult (Stringified result) false)))%async
    (fun error => Return (errorResult error)).

(** ** Semantics: the runtime, the clock and the network

    Time is a logical clock in milliseconds, the one [Date.now()] reads.
    Synchronous code takes no time, the clock never goes back and reading
    a body settles without delay. When a timer runs its callback is for
    the environment to say ([fires]); the general statements hold for any
    timers, and the runs that are computed use timers that fire exactly
    when they are due, which is one of the behaviours of the real event
    loop. *)

(** The delay a timer really gets: Node.js replaces a delay that is not a
    number between 1 and 2^31-1 by 1 ms. *)
Definition TIMEOUT_MAX : Z := 2147483647.

Definition timer_ms (ms : JSNum) : Z :=
  match ms with
  | Num z => if (1 <=? z) && (z <=? TIMEOUT_MAX) then z else 1
  | NaN => 1
  | Beyond => 1
  end.
Arguments timer_ms : simpl never.

(** The environment of a run: what the [n]-th outbound send is answered
    and after how many milliseconds, the JSON parser, and the timers: the
    clock at which a timer set at a given clock for a given delay runs its
    callback (in Node.js about [timer_ms] later, not exactly). *)
Record Env : Type := mkEnv {
  serve : nat -> Request -> FetchResult;
  latency : nat -> nat;
  json_parse : string -> ParseResult;
  fires : Z -> JSNum -> Z
}.

(** Timers that run their callback exactly when they are due. *)
Definition exact_timers (t : Z) (ms : JSNum) : Z := t + timer_ms ms.

Inductive Event : Type :=
| EvRead (tid : nat) (t : Z) (v : Z)
| EvWrite (tid : nat) (t : Z) (v : Z)
| EvTimer (tid : nat) (t : Z) (ms : JSNum)
| EvSend (tid : nat) (t : Z) (req : Request)
| EvText (tid : nat) (t : Z)
| EvParse (tid : nat) (t : Z).

Inductive Outcome (R : Type) : Type :=
| Resolved (v : R)
| Rejected (e : Error).
Arguments Resolved {R} v.
Arguments Rejected {R} e.

(** The process: the clock, the module-level [lastRequestTime], the events
    so far (oldest first) and the number of sends. *)
Record Proc : Type := mkProc {
  now : Z;
  lastRequestTime : Z;
  trace : list Event;
  nsent : nat
}.

Definition log (e : Event) (s : Proc) : Proc :=
  mkProc (now s) (lastRequestTime s) (trace s ++ [e]) (nsent s).

Definition store_last (t : Z) (s : Proc) : Proc :=
  mkProc (now s) t (trace s) (nsent s).

Definition count_send (s : Proc) : Proc :=
  mkProc (now s) (lastRequestTime s) (trace s) (S (nsent s)).

Definition advance (t : Z) (s : Proc) : Proc :=
  mkProc (Z.max (now s) t) (lastRequestTime s) (trace s) (nsent s).

Arguments log e s /.
Arguments store_last t s /.
Arguments count_send s /.
Arguments advance t s /.

(** A task after a turn: settled, or suspended until [wake]. *)
Inductive Paused (R : Type) : Type :=
| Done (o : Outcome R)
| Waits (wake : Z) (k : Async R).
Arguments Done {R} o.
Arguments Waits {R} wake k.

Section Runtime.
Context {R : Type}.
Variable env : Env.

(** Run task [tid] until it suspends or settles. *)
Fixpoint exec (tid : nat) (p : Async R) (s : Proc) : Paused R * Proc :=
  match p with
  | Return v => (Done (Resolved v), s)
  | Throw e => (Done (Rejected e), s)
  | DateNow k => exec tid (k (now s)) s
  | ReadLast k =>
      exec tid (k (lastRequestTime s))
           (log (EvRead tid (now s) (lastRequestTime s)) s)
  | WriteLast t k =>
      exec tid k (store_last t (log (EvWrite tid (now s) t) s))
  | SetTimeout ms k =>
      (Waits (fires env (now s) ms) k, log (EvTimer tid (now s) ms) s)
  | Fetch req k =>
      (Waits (now s + Z.of_nat (latency env (nsent s)))
             (k (serve env (nsent s) req)),
       count_send (log (EvSend tid (now s) req) s))
  | ResponseText r k =>
      exec tid (k (body_text r)) (log (EvText tid (now s)) s)
  | ResponseJson r k =>
      exec tid (k (json_parse env (body_text r))) (log (EvParse tid (now s)) s)
  end.

(** The event loop: the process, the suspended tasks with their wake-up
    times (in the order they were suspended) and the settled tasks. *)
Record World : Type := mkWorld {
  proc : Proc;
  waiting : list (Z * nat * Async R);
  settled : list (nat * Outcome R)
}.

(** The suspended task that wakes first (the oldest among equals). *)
Fixpoint earliest (l : list (Z * nat * Async R)) : option (Z * nat * Async R) :=
  match l with
  | [] => None
  | x :: r =>
      match earliest r with
      | Some y => if fst (fst y) <? fst (fst x) then Some y else Some x
      | None => Some x
      end
  end.

Fixpoint remove_first (wake : Z) (tid : nat) (l : list (Z * nat * Async R))
  : list (Z * nat * Async R) :=
  match l with
  | [] => []
  | x :: r =>
      if (fst (fst x) =? wake) && Nat.eqb (snd (fst x)) tid
      then r else x :: remove_first wake tid r
  end.

(** The loop after task [tid] has had its turn. *)
Definition after_turn (tid : nat) (turn : Paused R * Proc)
    (rest : list (Z * nat * Async R)) (done : list (nat * Outcome R)) : World :=
  match turn with
  | (Done o, s) => mkWorld s rest (done ++ [(tid, o)])
  | (Waits t k, s) => mkWorld s (rest ++ [(t, tid, k)]) done
  end.

(** One turn of the event loop. *)
Definition step (w : World) : option World :=
  match earliest (waiting w) with
  | Some (wake, tid, p) =>
      Some (after_turn tid (exec tid p (advance wake (proc w)))
                       (remove_first wake tid (waiting w)) (settled w))
  | None => None
  end.

Fixpoint run (fuel : nat) (w : World) : World :=
  match fuel with
  | O => w
  | S fuel' =>
      match step w with
      | Some w' => run fuel' w'
      | None => w
      end
  end.

(** The run of one task that is awaited with nothing else pending: a
    timer or a [fetch] moves the clock to the wake-up time. *)
Fixpoint alone (tid : nat) (p : Async R) (s : Proc) : Outcome R * Proc :=
  match p with
  | Return v => (Resolved v, s)
  | Throw e => (Rejected e, s)
  | DateNow k => alone tid (k (now s)) s
  | ReadLast k =>
      alone tid (k (lastRequestTime s))
            (log (EvRead tid (now s) (lastRequestTime s)) s)
  | WriteLast t k =>
      alone tid k (store_last t (log (EvWrite tid (now s) t) s))
  | SetTimeout ms k =>
      alone tid k
            (advance (fires env (now s) ms) (log (EvTimer tid (now s) ms) s))
  | Fetch req k =>
      alone tid (k (serve env (nsent s) req))
            (advance (now s + Z.of_nat (latency env (nsent s)))
                     (count_send (log (EvSend tid (now s) req) s)))
  | ResponseText r k =>
      alone tid (k (body_text r)) (log (EvText tid (now s)) s)
  | ResponseJson r k =>
      alone tid (k (json_parse env (body_text r))) (log (EvParse tid (now s)) s)
  end.
End Runtime.

Arguments World R : clear implicits.

(** ** Observations on a run *)

Definition send_time (e : Event) : option Z :=
  match e with
  | EvSend _ t _ => Some t
  | _ => None
  end.

Definition sent_request (e : Event) : option Request :=
  match e with
  | EvSend _ _ req => Some req
  | _ => None
  end.

(** The task reads the body of a response ([text()] or [json()]). *)
Definition reads_body (e : Event) : bool :=
  match e with
  | EvText _ _ | EvParse _ _ => true
  | _ => false
  end.

(** The task reads or writes the rate-gate timestamp. *)
Definition touches_timestamp (e : Event) : bool :=
  match e with
  | EvRead _ _ _ | EvWrite _ _ _ => true
  | _ => false
  end.

(** The times of the outbound sends, oldest first. *)
Definition send_times (tr : list Event) : list Z := omap send_time tr.

Definition sent_requests (tr : list Event) : list Request := omap sent_request tr.

(** Consecutive entries are at least [gap] apart. *)
Fixpoint spaced (gap : Z) (ts : list Z) : bool :=
  match ts with
  | t1 :: ((t2 :: _) as rest) => (gap <=? t2 - t1) && spaced gap rest
  | _ => true
  end.

(** A process whose module has just been loaded
    ([let lastRequestTime = 0]), at clock [t]. *)
Definition fresh (t : Z) : Proc := mkProc t 0 [] 0.

(** Calls made at given times, as tasks 0, 1, 2, ... *)
Fixpoint spawn_all {R} (tid : nat) (calls : list (Z * Async R))
  : list (Z * nat * Async R) :=
  match calls with
  | [] => []
  | (start, p) :: rest => (start, tid, p) :: spawn_all (S tid) rest
  end.

(** The event loop started on a fresh process with the given calls. *)
Definition concurrently {R} (env : Env) (fuel : nat) (calls : list (Z * Async R))
  : World R :=
  run env fuel (mkWorld (fresh 0) (spawn_all 0 calls) []).

(** ** The ten operations as one type *)

Inductive Operation : Type :=
| ListCalendars (pageToken : option string)
| GetCalendar (calendarId : string)
| ListEvents (calendarId : string) (timeMin timeMax q : option string)
             (maxResults : option JSNumber) (pageToken : option string)
             (singleEvents : option bool) (orderBy : option string)
| GetEvent (calendarId eventId : string)
| CreateEvent (calendarId : string) (event : gmap string Json)
| UpdateEvent (calendarId eventId : string) (event : gmap string Json)
| DeleteEvent (calendarId eventId : string)
| QuickAddEvent (calendarId text : string)
| GetFreeBusy (req : Json)
| ListColors.

(** The value an operation resolves with: [None] is [undefined]
    ([deleteEvent] returns nothing). *)
Definition perform (this : GoogleCalendarClient) (op : Operation)
  : Async (option Json) :=
  match op with
  | ListCalendars pageToken =>
      bind (listCalendars this pageToken) (fun j => Return (Some j))
  | GetCalendar calendarId =>
      bind (getCalendar this calendarId) (fun j => Return (Some j))
  | ListEvents calendarId timeMin timeMax q maxResults pageToken singleEvents orderBy =>
      bind (listEvents this calendarId timeMin timeMax q maxResults pageToken
                       singleEvents orderBy)
           (fun j => Return (Some j))
  | GetEvent calendarId eventId =>
      bind (getEvent this calendarId eventId) (fun j => Return (Some j))
  | CreateEvent calendarId event =>
      bind (createEvent this calendarId event) (fun j => Return (Some j))
  | UpdateEvent calendarId eventId event =>
      bind (updateEvent this calendarId eventId event) (fun j => Return (Some j))
  | DeleteEvent calendarId eventId =>
      bind (deleteEvent this calendarId eventId) (fun _ => Return None)
  | QuickAddEvent calendarId text =>
      bind (quickAddEvent this calendarId text) (fun j => Return (Some j))
  | GetFreeBusy req =>
      bind (getFreeBusy this req) (fun j => Return (Some j))
  | ListColors =>
      bind (listColors this) (fun j => Return (Some j))
  end.

(** ** Notions used in the statements *)

(** The request that [request] hands to [fetch], at the first attempt and
    at the retry alike. *)
Definition built_request (this : GoogleCalendarClient) (method : string)
    (path : list PathPart) (body : option Payload)
    (params : option (Obj (option string))) : Request :=
  mkRequest (build_url path params) (build_options this method body).

(** The clock when [rateLimit] returns. *)
Definition gate_open (env : Env) (s : Proc) : Z :=
  let elapsed := now s - lastRequestTime s in
  if elapsed <? RATE_LIMIT_DELAY_MS
  then Z.max (now s) (fires env (now s) (Num (RATE_LIMIT_DELAY_MS - elapsed)))
  else now s.

(** What [rateLimit], run by task [tid], adds to the trace. *)
Definition gate_events (env : Env) (tid : nat) (s : Proc) : list Event :=
  let elapsed := now s - lastRequestTime s in
  EvRead tid (now s) (lastRequestTime s)
  :: (if elapsed <? RATE_LIMIT_DELAY_MS
      then [EvTimer tid (now s) (Num (RATE_LIMIT_DELAY_MS - elapsed))]
      else [])
  ++ [EvWrite tid (gate_open env s) (gate_open env s)].

Arguments gate_open : simpl never.
Arguments gate_events : simpl never.

(** The process once [request], run by task [tid] from [s], has sent
    [req] and the answer has arrived. *)
Definition first_send (env : Env) (tid : nat) (req : Request) (s : Proc) : Proc :=
  mkProc (Z.max (gate_open env s)
                (gate_open env s + Z.of_nat (latency env (nsent s))))
         (gate_open env s)
         (trace s ++ gate_events env tid s ++ [EvSend tid (gate_open env s) req])
         (S (nsent s)).

(** The clock when the wait after the throttled answer [r] ends. *)
Definition retry_time (env : Env) (r : Response) (p : Proc) : Z :=
  Z.max (now p) (fires env (now p) (retry_delay r)).

(** The process once the retry after the throttled answer [r] has been
    sent and answered. *)
Definition retry_send (env : Env) (tid : nat) (req : Request) (r : Response)
    (p : Proc) : Proc :=
  mkProc (Z.max (retry_time env r p)
                (retry_time env r p + Z.of_nat (latency env (nsent p))))
         (lastRequestTime p)
         (trace p ++ [EvTimer tid (now p) (retry_delay r);
                      EvSend tid (retry_time env r p) req])
         (S (nsent p)).

(** How [request] settles on the response it ends with. *)
Definition conclude (env : Env) (tid : nat) (r : Response) (p : Proc)
  : Outcome Json * Proc :=
  if negb (ok r)
  then (Rejected (mkError (error_message r (body_text r))),
        log (EvText tid (now p)) p)
  else if status r =? 204
       then (Resolved (JObj []), p)
       else match json_parse env (body_text r) with
            | Parsed j => (Resolved j, log (EvParse tid (now p)) p)
            | ParseError e => (Rejected e, log (EvParse tid (now p)) p)
            end.

Definition map_outcome {A B} (f : A -> B) (o : Outcome A) : Outcome B :=
  match o with
  | Resolved a => Resolved (f a)
  | Rejected e => Rejected e
  end.

(** What an operation resolves with when [request] yields [j]. *)
Definition result_of (op : Operation) (j : Json) : option Json :=
  match op with
  | DeleteEvent _ _ => None
  | _ => Some j
  end.

(** Whether the answer to the [n]-th send makes [request] send again. *)
Definition retried (env : Env) (n : nat) (req : Request) : bool :=
  match serve env n req with
  | Responded r => status r =? 429
  | NetworkError _ => false
  end.

(** The value of a query parameter of a request, if it has one. *)
Definition query_get (req : Request) (k : string) : option string :=
  obj_get (searchParams (req_url req)) k.

Definition query_keys (req : Request) : list string :=
  fst <$> searchParams (req_url req).

(** The fields the caller of the update tool specified, by name. *)
Definition supplied (a : UpdateArgs) (k : string) : option Json :=
  if String.eqb k "summary" then JStr <$> u_summary a
  else if String.eqb k "description" then JStr <$> u_description a
  else if String.eqb k "location" then JStr <$> u_location a
  else if String.eqb k "start" then u_start a
  else if String.eqb k "end" then u_end a
  else if String.eqb k "attendees" then u_attendees a
  else if String.eqb k "reminders" then u_reminders a
  else if String.eqb k "colorId" then JStr <$> u_colorId a
  else if String.eqb k "transparency" then JStr <$> u_transparency a
  else if String.eqb k "visibility" then JStr <$> u_visibility a
  else None.

(** The request of [updateEvent] for the arguments of the update tool. *)
Definition update_request (token : string) (a : UpdateArgs) : Request :=
  mkRequest
    (mkURL BASE_URL
           [Lit "/calendars/"; Encoded (u_calendarId a);
            Lit "/events/"; Encoded (u_eventId a)]
           [])
    (mkInit "PUT"
            [("Authorization", "Bearer " +:+ token);
             ("Content-Type", "application/json")]
            (Some (EventBody (update_event_object a)))).

Definition listEvents_names : list string :=
  ["timeMin"; "timeMax"; "q"; "maxResults"; "pageToken"; "singleEvents"; "orderBy"].

(** ** The tools as one type

    The eight tools whose arguments reach the client as they are given
    ([gcal_create_event] and [gcal_get_free_busy] build object literals
    with [undefined] properties, which the payloads here do not hold). *)
Inductive ToolCall : Type :=
| CallListCalendars (pageToken : option string)
| CallGetCalendar (calendarId : string)
| CallListEvents (calendarId : string) (timeMin timeMax q : option string)
                 (maxResults : option JSNumber) (pageToken : option string)
                 (singleEvents : option bool) (orderBy : option string)
| CallGetEvent (calendarId eventId : string)
| CallUpdateEvent (a : UpdateArgs)
| CallDeleteEvent (calendarId eventId : string)
| CallQuickAddEvent (calendarId text : string)
| CallListColors.

(** The handler the server registered with [token] runs for a call. *)
Definition handle (token : string) (call : ToolCall) : Async ToolResult :=
  match call with
  | CallListCalendars pageToken => gcal_list_calendars token pageToken
  | CallGetCalendar calendarId => gcal_get_calendar token calendarId
  | CallListEvents calendarId timeMin timeMax q maxResults pageToken singleEvents orderBy =>
      gcal_list_events token calendarId timeMin timeMax q maxResults pageToken
                       singleEvents orderBy
  | CallGetEvent calendarId eventId => gcal_get_event token calendarId eventId
  | CallUpdateEvent a => gcal_update_event token a
  | CallDeleteEvent calendarId eventId => gcal_delete_event token calendarId eventId
  | CallQuickAddEvent calendarId text => gcal_quick_add_event token calendarId text
  | CallListColors => gcal_list_colors token
  end.

(** The client operation behind a tool call. *)
Definition tool_operation (call : ToolCall) : Operation :=
  match call with
  | CallListCalendars pageToken => ListCalendars pageToken
  | CallGetCalendar calendarId => GetCalendar calendarId
  | CallListEvents calendarId timeMin timeMax q maxResults pageToken singleEvents orderBy =>
      ListEvents calendarId timeMin timeMax q maxResults pageToken singleEvents orderBy
  | CallGetEvent calendarId eventId => GetEvent calendarId eventId
  | CallUpdateEvent a =>
      UpdateEvent (u_calendarId a) (u_eventId a) (update_event_object a)
  | CallDeleteEvent calendarId eventId => DeleteEvent calendarId eventId
  | CallQuickAddEvent calendarId text => QuickAddEvent calendarId text
  | CallListColors => ListColors
  end.

(** ** More notions used in the statements *)

(** The requests a task adds to those the process had sent before. *)
Definition new_sends {R} (env : Env) (tid : nat) (p : Async R) (s : Proc)
  : list Request :=
  drop (length (sent_requests (trace s)))
       (sent_requests (trace (snd (alone env tid p s)))).

(** The first request a program hands to [fetch] (the clock and the
    timestamp it reads on the way do not enter the request). *)
Fixpoint first_fetch {A} (p : Async A) : option Request :=
  match p with
  | Return _ | Throw _ => None
  | DateNow k => first_fetch (k 0)
  | ReadLast k => first_fetch (k 0)
  | WriteLast _ k => first_fetch k
  | SetTimeout _ k => first_fetch k
  | Fetch req _ => Some req
  | ResponseText _ k => first_fetch (k "")
  | ResponseJson _ k => first_fetch (k (Parsed JNull))
  end.

(** ** Scenarios *)

Definition reply (st : Z) (hdrs : Obj string) (text : string) : Response :=
  mkResponse st hdrs text.

(** A network that answers the sends in order from a script (and with an
    empty 200 afterwards), each after [lat] ms. *)
Definition scripted (answers : list FetchResult) (lat : nat) : Env :=
  mkEnv (fun n _ => default (Responded (reply 200 [] "{}")) (answers !! n))
        (fun _ => lat)
        (fun _ => Parsed (JObj []))
        exact_timers.

(** The number 0: falsy, printed as "0". *)
Definition zero : JSNumber := mkNumber false "0".

Definition not_found : Response := reply 404 [] "Not Found".
Definition no_content : Response := reply 204 [] "".

Definition ok_empty : Response := reply 200 [] "{}".

(** A 429, with the given [Retry-After] header if any. *)
Definition throttled (retryAfter : option string) : Response :=
  reply 429
        (match retryAfter with
         | Some v => [("Retry-After", v)]
         | None => []
         end)
        "rateLimitExceeded".

Definition http_date : string := "Wed, 21 Oct 2015 07:28:00 GMT".

Definition unexpected_end : Error :=
  mkError "Unexpected end of JSON input".

(** A network whose one answer is a 200 with an empty body, which the
    parser refuses. *)
Definition unparsable : Env :=
  mkEnv (fun _ _ => Responded (reply 200 [] "")) (fun _ => 5%nat)
        (fun _ => ParseError unexpected_end) exact_timers.

Definition fetch_failed : Error := mkError "fetch failed".

Definition a_client : GoogleCalendarClient := mkClient "ya29.token".

(** * Properties *)

(** ** The monad and the two semantics *)

Section Semantics.
Variable env : Env.

(** Awaiting [p] and going on with [f] is running [p], then [f] on its
    value; a rejection of [p] is the rejection of the whole. *)
Lemma alone_bind {A B} (tid : nat) (p : Async A) (f : A -> Async B) (s : Proc) :
  alone env tid (bind p f) s =
  match alone env tid p s with
  | (Resolved a, s') => alone env tid (f a) s'
  | (Rejected e, s') => (Rejected e, s')
  end.
Proof.
  revert s.
  induction p as [a|e|k IH|k IH|t k IH|ms k IH|req k IH|r k IH|r k IH];
    intros s; cbn; auto.
Qed.

(** [try]/[catch]: a rejection of [p] continues in the handler, in the
    process as the rejection left it. *)
Lemma alone_try_catch {A} (tid : nat) (p : Async A) (h : Error -> Async A)
    (s : Proc) :
  alone env tid (try_catch p h) s =
  match alone env tid p s with
  | (Resolved a, s') => (Resolved a, s')
  | (Rejected e, s') => alone env tid (h e) s'
  end.
Proof.
  revert s.
  induction p as [a|e|k IH|k IH|t k IH|ms k IH|req k IH|r k IH|r k IH];
    intros s; cbn; auto.
Qed.

Lemma rateLimit_alone (tid : nat) (s : Proc) :
  alone env tid rateLimit s =
  (Resolved tt,
   mkProc (gate_open env s) (gate_open env s) (trace s ++ gate_events env tid s) (nsent s)).
Proof.
  unfold rateLimit, gate_events, gate_open. cbn.
  destruct (now s - lastRequestTime s <? RATE_LIMIT_DELAY_MS); cbn;
    rewrite <- ?app_assoc; reflexivity.
Qed.

(** Every operation is one call of [request]; its value is the parsed
    result, or nothing for [deleteEvent]. *)
Lemma perform_alone (this : GoogleCalendarClient) (op : Operation) :
  exists method path body params,
  forall tid s,
    alone env tid (perform this op) s =
    (map_outcome (result_of op)
                 (fst (alone env tid (request this method path body params) s)),
     snd (alone env tid (request this method path body params) s)).
Proof.
  destruct op; cbn [perform];
    unfold listCalendars, getCalendar, listEvents, getEvent, createEvent,
           updateEvent, deleteEvent, quickAddEvent, getFreeBusy, listColors;
    do 4 eexists; intros tid s; rewrite ?alone_bind;
    lazymatch goal with
    | |- ?lhs = (_, snd ?rhs) =>
        lazymatch lhs with
        | context [alone env tid (request ?c ?m ?p ?b ?ps) s] =>
            unify rhs (alone env tid (request c m p b ps) s);
            destruct (alone env tid (request c m p b ps) s) as [[a|e] s']
        end
    end; cbn; reflexivity.
Qed.

Lemma sent_requests_app (l1 l2 : list Event) :
  sent_requests (l1 ++ l2) = sent_requests l1 ++ sent_requests l2.
Proof. apply omap_app. Qed.

Lemma send_times_app (l1 l2 : list Event) :
  send_times (l1 ++ l2) = send_times l1 ++ send_times l2.
Proof. apply omap_app. Qed.

Lemma gate_events_no_send (tid : nat) (s : Proc) :
  sent_requests (gate_events env tid s) = [] /\ send_times (gate_events env tid s) = [].
Proof.
  unfold gate_events.
  destruct (now s - lastRequestTime s <? RATE_LIMIT_DELAY_MS); split; reflexivity.
Qed.

Lemma gate_events_no_body (tid : nat) (s : Proc) :
  List.filter reads_body (gate_events env tid s) = [].
Proof.
  unfold gate_events.
  destruct (now s - lastRequestTime s <? RATE_LIMIT_DELAY_MS); reflexivity.
Qed.

Lemma timer_ms_pos (ms : JSNum) : 1 <= timer_ms ms.
Proof.
  unfold timer_ms. destruct ms as [z| |]; [|lia|lia].
  destruct (Z.leb_spec 1 z); cbn; [|lia].
  destruct (z <=? TIMEOUT_MAX); lia.
Qed.

Lemma timer_ms_exact (z : Z) : 1 <= z <= TIMEOUT_MAX -> timer_ms (Num z) = z.
Proof.
  intros [H1 H2]. unfold timer_ms.
  destruct (Z.leb_spec 1 z); [|lia]. destruct (Z.leb_spec z TIMEOUT_MAX); [|lia].
  reflexivity.
Qed.

Lemma double_of_safe (z : Z) :
  - MAX_SAFE <= z <= MAX_SAFE -> double_of z = Num z.
Proof.
  intros [H1 H2]. unfold double_of.
  destruct (Z.leb_spec (- MAX_SAFE) z); [|lia].
  destruct (Z.leb_spec z MAX_SAFE); [|lia]. reflexivity.
Qed.

(** The gate lets a call through no earlier than it was made. *)
Lemma gate_open_spec (s : Proc) : now s <= gate_open env s.
Proof.
  unfold gate_open.
  destruct (now s - lastRequestTime s <? RATE_LIMIT_DELAY_MS); lia.
Qed.

(** With nothing suspended the loop is idle. *)
Lemma run_idle {R} (fuel : nat) (w : World R) :
  waiting w = [] -> run env fuel w = w.
Proof.
  intros Hw. destruct fuel as [|fuel]; cbn; [reflexivity|].
  unfold step. rewrite Hw. reflexivity.
Qed.

Lemma step_single {R} (t : Z) (tid : nat) (p : Async R) (s : Proc)
    (done : list (nat * Outcome R)) :
  step env (mkWorld s [(t, tid, p)] done) =
  Some (after_turn tid (exec env tid p (advance t s)) [] done).
Proof.
  unfold step. cbn. rewrite Z.eqb_refl, Nat.eqb_refl. reflexivity.
Qed.

Lemma run_after_turn {R} (tid : nat) (p : Async R) :
  forall (s : Proc) (done : list (nat * Outcome R)),
  exists n, forall fuel, (n <= fuel)%nat ->
    run env fuel (after_turn tid (exec env tid p s) [] done) =
    mkWorld (snd (alone env tid p s)) [] (done ++ [(tid, fst (alone env tid p s))]).
Proof.
  induction p as [a|e|k IH|k IH|t k IH|ms k IH|req k IH|r k IH|r k IH];
    intros s done; cbn [exec alone]; auto.
  - exists 0%nat. intros fuel _. apply run_idle. reflexivity.
  - exists 0%nat. intros fuel _. apply run_idle. reflexivity.
  - destruct (IH (advance (fires env (now s) ms) (log (EvTimer tid (now s) ms) s)) done)
      as [n Hn].
    exists (S n). intros [|fuel] Hle; [lia|].
    cbn [after_turn app run]. rewrite step_single. apply Hn. lia.
  - destruct (IH (serve env (nsent s) req)
                 (advance (now s + Z.of_nat (latency env (nsent s)))
                          (count_send (log (EvSend tid (now s) req) s))) done)
      as [n Hn].
    exists (S n). intros [|fuel] Hle; [lia|].
    cbn [after_turn app run]. rewrite step_single. apply Hn. lia.
Qed.

(** The event loop with one task and nothing else pending settles it, with
    enough fuel, as [alone] does. *)
Lemma run_alone {R} (start : Z) (tid : nat) (p : Async R) (s : Proc)
    (done : list (nat * Outcome R)) :
  exists n, forall fuel, (n <= fuel)%nat ->
    run env fuel (mkWorld s [(start, tid, p)] done) =
    mkWorld (snd (alone env tid p (advance start s))) []
            (done ++ [(tid, fst (alone env tid p (advance start s)))]).
Proof.
  destruct (run_after_turn tid p (advance start s) done) as [n Hn].
  exists (S n). intros [|fuel] Hle; [lia|].
  cbn [run]. rewrite step_single. apply Hn. lia.
Qed.
End Semantics.

(** ** The life cycle of one request *)

Section RequestLifeCycle.
Variable env : Env.
Variable this : GoogleCalendarClient.
Variables (method : string) (path : list PathPart) (body : option Payload)
          (params : option (Obj (option string))).
Variables (tid : nat) (s : Proc).

Let req := built_request this method path body params.
Let call := request this method path body params.

(** [request] run to its end: the gate, the send, at most one more send
    after a 429, and the conclusion on the last response. *)
Lemma request_alone :
  alone env tid call s =
  match serve env (nsent s) req with
  | NetworkError e => (Rejected e, first_send env tid req s)
  | Responded r1 =>
      if status r1 =? 429
      then match serve env (S (nsent s)) req with
           | NetworkError e =>
               (Rejected e, retry_send env tid req r1 (first_send env tid req s))
           | Responded r2 =>
               conclude env tid r2
                        (retry_send env tid req r1 (first_send env tid req s))
           end
      else conclude env tid r1 (first_send env tid req s)
  end.
Proof.
  unfold call, request. rewrite alone_bind, rateLimit_alone. cbn.
  fold (built_request this method path body params). fold req.
  unfold first_send at 1 4.
  destruct (serve env (nsent s) req) as [r1|e]; cbn;
    [|rewrite <- !app_assoc; reflexivity].
  destruct (status r1 =? 429); cbn.
  - unfold retry_send, retry_time, first_send. cbn.
    destruct (serve env (S (nsent s)) req) as [r2|e]; cbn;
      [|rewrite <- !app_assoc; reflexivity].
    unfold conclude. destruct (negb (ok r2)); cbn;
      [rewrite <- !app_assoc; reflexivity|].
    destruct (status r2 =? 204); cbn; [rewrite <- !app_assoc; reflexivity|].
    destruct (json_parse env (body_text r2)); cbn;
      rewrite <- !app_assoc; reflexivity.
  - unfold conclude. destruct (negb (ok r1)); cbn;
      [rewrite <- !app_assoc; reflexivity|].
    destruct (status r1 =? 204); cbn; [rewrite <- !app_assoc; reflexivity|].
    destruct (json_parse env (body_text r1)); cbn;
      rewrite <- !app_assoc; reflexivity.
Qed.

Ltac by_cases :=
  rewrite request_alone;
  destruct (serve env (nsent s) req) as [r1|e1];
  [destruct (status r1 =? 429);
   [destruct (serve env (S (nsent s)) req) as [r2|e2]|]|];
  unfold conclude;
  repeat match goal with
         | |- context [if ?b then _ else _] => destruct b
         | |- context [match json_parse ?e ?t with _ => _ end] =>
             destruct (json_parse e t)
         end;
  cbn.




(** The request is sent once, and once more, unchanged, exactly when the
    first answer is a 429. *)
Lemma request_sends :
  sent_requests (trace (snd (alone env tid call s))) =
  sent_requests (trace s) ++ req :: (if retried env (nsent s) req then [req] else []).
Proof.
  unfold retried.
  by_cases;
    rewrite ?sent_requests_app, (proj1 (gate_events_no_send env tid s)); cbn;
    rewrite ?app_nil_r, <- ?app_assoc; reflexivity.
Qed.


End RequestLifeCycle.

(** ** Error mapping and empty-body success *)

Section Settling.
Variable env : Env.
Variable this : GoogleCalendarClient.
Variable op : Operation.
Variables (tid : nat) (s : Proc).
(** [r1] answers the first send; [r] is the response the operation ends
    with: [r1], or the answer to the retry when [r1] is a 429. *)
Variables r1 r : Response.
Hypothesis first_answer : forall req, serve env (nsent s) req = Responded r1.
Hypothesis last_answer :
  (status r1 <> 429 /\ r = r1) \/
  (status r1 = 429 /\ forall req, serve env (S (nsent s)) req = Responded r).

Lemma perform_concludes :
  exists req p,
    alone env tid (perform this op) s =
    (map_outcome (result_of op) (fst (conclude env tid r p)),
     snd (conclude env tid r p)) /\
    List.filter reads_body (trace p) = List.filter reads_body (trace s) /\
    (p = first_send env tid req s \/
     p = retry_send env tid req r1 (first_send env tid req s)).
Proof.
  destruct (perform_alone env this op) as (method & path & body & params & Hop).
  exists (built_request this method path body params).
  rewrite Hop, request_alone, first_answer.
  destruct last_answer as [[Hne ->]|[Heq Hsecond]].
  - destruct (Z.eqb_spec (status r1) 429) as [|_]; [contradiction|].
    eexists; split; [reflexivity|]. split; [|left; reflexivity].
    cbn. rewrite !List.filter_app, gate_events_no_body. cbn.
    rewrite app_nil_r. reflexivity.
  - rewrite Heq, Hsecond. cbn [Z.eqb Pos.eqb].
    eexists; split; [reflexivity|]. split; [|right; reflexivity].
    cbn. rewrite !List.filter_app, gate_events_no_body. cbn.
    rewrite !app_nil_r. reflexivity.
Qed.

(** C3: a response with a non-success status, after the single retry on
    429 if there was one, makes the operation fail with an error whose
    message holds the status code and the body text as received; the
    status is not looked at any further. *)
Theorem nonsuccess_status_rejects :
  ok r = false ->
  fst (alone env tid (perform this op) s) =
  Rejected (mkError ("Google Calendar API error (" +:+ pretty (status r)
                     +:+ "): " +:+ body_text r)).
Proof.
  intros Hok. destruct perform_concludes as (req & p & -> & _ & _).
  unfold conclude. rewrite Hok. reflexivity.
Qed.

(** C4: a success response with status 204 resolves the operation with an
    empty result ([deleteEvent]: with nothing) and the body is neither
    read nor parsed. *)
Theorem no_content_resolves_empty :
  status r = 204 ->
  fst (alone env tid (perform this op) s) = Resolved (result_of op (JObj [])) /\
  List.filter reads_body (trace (snd (alone env tid (perform this op) s))) =
  List.filter reads_body (trace s).
Proof.
  intros H204. destruct perform_concludes as (req & p & -> & Hp & _).
  unfold conclude, ok. rewrite H204. cbn. split; [reflexivity|exact Hp].
Qed.
End Settling.

Lemma nonsuccess_status_rejects_witness :
  fst (alone (scripted [Responded not_found] 5) 0
             (perform a_client (GetCalendar "primary")) (fresh 5000)) =
  Rejected (mkError "Google Calendar API error (404): Not Found").
Proof.
  apply (nonsuccess_status_rejects (scripted [Responded not_found] 5) a_client
           (GetCalendar "primary") 0 (fresh 5000) not_found not_found).
  - intros req. reflexivity.
  - left. split; [vm_compute; discriminate|reflexivity].
  - reflexivity.
Defined.

(** [deleteEvent("primary", "abc")] against a 204 resolves with nothing and
    parses nothing. *)
Lemma no_content_resolves_empty_witness :
  fst (alone (scripted [Responded no_content] 5) 0
             (perform a_client (DeleteEvent "primary" "abc")) (fresh 5000)) =
  Resolved None /\
  List.filter reads_body
    (trace (snd (alone (scripted [Responded no_content] 5) 0
                       (perform a_client (DeleteEvent "primary" "abc"))
                       (fresh 5000)))) = [].
Proof.
  apply (no_content_resolves_empty (scripted [Responded no_content] 5) a_client
           (DeleteEvent "primary" "abc") 0 (fresh 5000) no_content no_content).
  - intros req. reflexivity.
  - left. split; [vm_compute; discriminate|reflexivity].
  - reflexivity.
Defined.

(** ** The rate gate and the retry *)

Section Gate.
Variable env : Env.



(** The operation sends its request once, and a second time, unchanged,
    exactly when the first answer is a 429: never a third time. *)
Lemma perform_sends (this : GoogleCalendarClient) (op : Operation)
    (tid : nat) (s : Proc) :
  exists req,
    sent_requests (trace (snd (alone env tid (perform this op) s))) =
    sent_requests (trace s) ++
    req :: (if retried env (nsent s) req then [req] else []).
Proof.
  destruct (perform_alone env this op) as (method & path & body & params & Hop).
  rewrite Hop. eexists. apply request_sends.
Qed.

(** A [Retry-After] of [n] seconds, within the range of a timer, sets the
    timer of the retry for [n * 1000] ms; without the header it is set
    for 1000 ms. *)
Lemma retry_waits_seconds (r : Response) (v : string) (n : Z) :
  headers_get r "Retry-After" = Some v -> v <> "" -> parseInt v = Num n ->
  1 <= n * 1000 <= TIMEOUT_MAX ->
  retry_delay r = Num (n * 1000) /\ timer_ms (retry_delay r) = n * 1000.
Proof.
  intros Hget Hne Hparse Hrange.
  assert (Hdelay : retry_delay r = Num (n * 1000)).
  { unfold retry_delay. rewrite Hget. destruct v as [|a v]; [contradiction|].
    cbn [truthy_str from_option id]. rewrite Hparse. cbn [JSNum_mul].
    apply double_of_safe. unfold MAX_SAFE. unfold TIMEOUT_MAX in Hrange. lia. }
  split; [exact Hdelay|]. rewrite Hdelay. apply timer_ms_exact. assumption.
Qed.

Lemma retry_waits_fallback (r : Response) :
  headers_get r "Retry-After" = None ->
  retry_delay r = Num 1000 /\ timer_ms (retry_delay r) = 1000.
Proof.
  intros Hget. unfold retry_delay. rewrite Hget. cbn [truthy_str].
  split; [reflexivity|]. apply timer_ms_exact. unfold TIMEOUT_MAX. lia.
Qed.
End Gate.

(** ** Runs that show the gaps of the rate gate and of the retry *)

(** C1: three calls made 10 ms apart while the first is in flight. The
    second and the third both read the timestamp of the first send before
    either of them writes it, both wake at 5100 and both send then: two
    sends 0 ms apart, where the minimum interval is 100 ms. *)
Theorem concurrent_calls_send_together :
  let w := concurrently (scripted [] 5) 12
             [(5000, perform a_client (GetCalendar "primary"));
              (5010, perform a_client ListColors);
              (5020, perform a_client (GetEvent "primary" "abc"))] in
  waiting w = [] /\
  send_times (trace (proc w)) = [5000; 5100; 5100] /\
  spaced RATE_LIMIT_DELAY_MS (send_times (trace (proc w))) = false.
Proof. vm_compute. repeat split; reflexivity. Qed.

(** C2: a 429 whose [Retry-After] is an HTTP date: the delay computed from
    it is not a number, the timer fires after 1 ms and the retry leaves
    1 ms after the answer came in (5005), where the header with the value
    2 makes it wait 2000 ms. *)
Theorem retry_after_http_date_retries_at_once :
  let dated := scripted [Responded (throttled (Some http_date)); Responded ok_empty] 5 in
  let two := scripted [Responded (throttled (Some "2")); Responded ok_empty] 5 in
  let call := perform a_client (GetCalendar "primary") in
  retry_delay (throttled (Some http_date)) = NaN /\
  send_times (trace (snd (alone dated 0 call (fresh 5000)))) = [5000; 5006] /\
  retry_delay (throttled (Some "2")) = Num 2000 /\
  send_times (trace (snd (alone two 0 call (fresh 5000)))) = [5000; 7005].
Proof. vm_compute. repeat split; reflexivity. Qed.

(** C7: a call that is throttled once ([Retry-After: 2]) and then answered.
    The timestamp is read and written at the first attempt only; the retry
    leaves at 7005 and the timestamp stays 5000, so that the next call,
    made when the first has returned (7010), passes the gate at once, 5 ms
    after the retry. *)
Theorem retry_leaves_timestamp_untouched :
  let env := scripted [Responded (throttled (Some "2")); Responded ok_empty] 5 in
  let s1 := snd (alone env 0 (perform a_client (GetCalendar "primary")) (fresh 5000)) in
  let s2 := snd (alone env 1 (perform a_client ListColors) s1) in
  send_times (trace s1) = [5000; 7005] /\
  List.filter touches_timestamp (trace s1) = [EvRead 0 5000 0; EvWrite 0 5000 5000] /\
  lastRequestTime s1 = 5000 /\
  send_times (trace s2) = [5000; 7005; 7010] /\
  spaced RATE_LIMIT_DELAY_MS (send_times (trace s2)) = false.
Proof. vm_compute. repeat split; reflexivity. Qed.



(** C10, as the claim states it, fails in its last part: a [Retry-After]
    header that is present with an empty value, or with nothing but white
    space, takes the fallback too: the delay is 1000 ms, where [parseInt]
    of the value times 1000 is [NaN]. *)
Lemma empty_retry_after_takes_fallback :
  headers_get (throttled (Some "")) "Retry-After" = Some "" /\
  headers_get (throttled (Some "  ")) "Retry-After" = Some "" /\
  JSNum_mul (parseInt "") 1000 = NaN /\
  retry_delay (throttled (Some "")) = Num 1000 /\
  retry_delay (throttled (Some "  ")) = Num 1000.
Proof. vm_compute. repeat split; reflexivity. Qed.

(** C10, amended: there is a 429 with a [Retry-After] header that does not
    start with a decimal integer (an HTTP date) for which the delay is
    [NaN], the timer of the retry gets the least delay, 1 ms, and the retry
    leaves 1 ms after the answer instead of 1000 ms after it. For every
    response the delay is the fallback of 1000 ms exactly when the header
    is absent or its value is empty, and otherwise [parseInt] of the value
    times 1000, whatever that is. *)
Theorem retry_after_not_a_number :
  (exists r,
      status r = 429 /\
      headers_get r "Retry-After" = Some http_date /\
      parseInt http_date = NaN /\
      retry_delay r = NaN /\
      timer_ms (retry_delay r) = 1 /\
      send_times (trace (snd (alone (scripted [Responded r] 5) 0
                                    (perform a_client ListColors) (fresh 5000))))
        = [5000; 5006]) /\
  (forall r,
      retry_delay r =
      match headers_get r "Retry-After" with
      | None => Num 1000
      | Some EmptyString => Num 1000
      | Some v => JSNum_mul (parseInt v) 1000
      end).
Proof.
  split.
  - exists (throttled (Some http_date)).
    repeat split; vm_compute; reflexivity.
  - intros r. unfold retry_delay.
    destruct (headers_get r "Retry-After") as [[|a v]|]; reflexivity.
Qed.

(** ** Construction *)

(** C5: construction fails with the configuration error when the token is
    missing or empty and succeeds for every non-empty token; it is a pure
    function, so no request can have been sent. A tool called on a server
    registered with an empty token answers with that error and leaves the
    process as it was: nothing is sent. *)
Theorem constructor_requires_token :
  (forall token : option string,
     constructor token =
     match token with
     | Some (String c t) => inr (mkClient (String c t))
     | _ => inl (mkError "GOOGLE_ACCESS_TOKEN is required")
     end) /\
  (forall env tid s calendarId eventId,
     alone env tid (gcal_delete_event "" calendarId eventId) s =
     (Resolved (mkToolResult (Plain "Error: GOOGLE_ACCESS_TOKEN is required") true), s)) /\
  (forall env tid s a,
     alone env tid (gcal_update_event "" a) s =
     (Resolved (mkToolResult (Plain "Error: GOOGLE_ACCESS_TOKEN is required") true), s)).
Proof.
  split; [|split].
  - intros [[|c t]|]; reflexivity.
  - reflexivity.
  - reflexivity.
Qed.

(** ** The update tool *)

Lemma lookup_assign_defined (name : string) (x : option Json)
    (event : gmap string Json) (k : string) :
  assign_defined name x event !! k =
  if String.eqb k name
  then match x with
       | Some v => Some v
       | None => event !! k
       end
  else event !! k.
Proof.
  unfold assign_defined. destruct (String.eqb_spec k name) as [->|Hne].
  - destruct x; [apply lookup_insert_eq|reflexivity].
  - destruct x; [apply lookup_insert_ne; congruence|reflexivity].
Qed.

(** A handler that ends with [Return] on either path leaves the process as
    the client call left it. *)
Lemma handler_proc {A B} (env : Env) (tid : nat) (p : Async A)
    (f : A -> B) (h : Error -> B) (s : Proc) :
  snd (alone env tid
         (try_catch (bind p (fun a => Return (f a))) (fun e => Return (h e))) s) =
  snd (alone env tid p s).
Proof.
  rewrite alone_try_catch, alone_bind.
  destruct (alone env tid p s) as [[a|e] s']; reflexivity.
Qed.

(** C9: the event object the update handler passes to [updateEvent] holds
    exactly the fields the caller specified, each with the value supplied,
    and no field the caller left undefined; it is that object which the
    client sends as the body of its PUT. *)
Theorem update_event_has_the_supplied_fields (a : UpdateArgs) :
  (forall k, update_event_object a !! k = supplied a k) /\
  (forall env tid s c t,
     exists rest,
       sent_requests (trace (snd (alone env tid (gcal_update_event (String c t) a) s))) =
       sent_requests (trace s) ++ update_request (String c t) a :: rest).
Proof.
  split.
  - intros k. unfold update_event_object, supplied.
    rewrite !lookup_assign_defined, lookup_empty.
    repeat match goal with
           | |- context [String.eqb k ?n] =>
               destruct (String.eqb_spec k n) as [->|?]; cbn
           end;
      repeat match goal with
             | |- context [match ?x with Some _ => _ | None => _ end] =>
                 destruct x; cbn
             end; reflexivity.
  - intros env tid s c t. unfold gcal_update_event, getClient. cbn [constructor truthy_str negb].
    cbn [from_option id].
    rewrite (handler_proc env tid
               (updateEvent (mkClient (String c t)) (u_calendarId a) (u_eventId a)
                            (update_event_object a))
               (fun result => mkToolResult (Stringified result) false) errorResult s).
    unfold updateEvent. rewrite request_sends. eexists. reflexivity.
Qed.

(** ** The query of [listEvents] *)

(** C6, as the claim states it, fails: a search text and a result limit
    that are supplied, but are the empty string and zero, do not appear in
    the query. *)
Lemma supplied_but_falsy_arguments_are_dropped :
  (fun req => searchParams (req_url req)) <$>
    sent_requests
      (trace (snd (alone (scripted [] 5) 0
                         (listEvents a_client "primary" None None (Some "") (Some zero)
                                     None None None)
                         (fresh 5000)))) = [[]].
Proof. vm_compute. reflexivity. Qed.

Section ListEventsQuery.
Variable env : Env.
Variable this : GoogleCalendarClient.
Variables (tid : nat) (s : Proc).

Ltac split_truthy :=
  repeat match goal with
         | |- context [truthy_str ?x] =>
             is_var x; destruct (truthy_str x) eqn:?;
             [destruct x; [|discriminate]|]
         | |- context [truthy_num ?x] =>
             is_var x; destruct (truthy_num x) eqn:?;
             [destruct x; [|discriminate]|]
         | |- context [bool_toString <$> ?x] => is_var x; destruct x as [[|]|]
         end.

(** C6, amended: the query of [listEvents] holds exactly the arguments
    that are truthy (a non-empty string, a limit that is neither 0 nor
    [NaN]), and [singleEvents] whenever it is defined, each once, under
    its own name and with its value, for the limit what [toString()]
    gives; an argument that is omitted, empty, 0 or [NaN] is absent. With
    [timeMin] alone the query is that one parameter. *)
Theorem listEvents_query_has_the_truthy_arguments :
  (forall calendarId timeMin timeMax q maxResults pageToken singleEvents orderBy,
     exists req rest,
       sent_requests
         (trace (snd (alone env tid
                            (listEvents this calendarId timeMin timeMax q maxResults
                                        pageToken singleEvents orderBy) s))) =
       sent_requests (trace s) ++ req :: rest /\
       query_get req "timeMin" = (if truthy_str timeMin then timeMin else None) /\
       query_get req "timeMax" = (if truthy_str timeMax then timeMax else None) /\
       query_get req "q" = (if truthy_str q then q else None) /\
       query_get req "maxResults" =
         (if truthy_num maxResults then num_toString <$> maxResults else None) /\
       query_get req "pageToken" = (if truthy_str pageToken then pageToken else None) /\
       query_get req "singleEvents" = (bool_toString <$> singleEvents) /\
       query_get req "orderBy" = (if truthy_str orderBy then orderBy else None) /\
       NoDup (query_keys req) /\
       query_keys req ⊆ listEvents_names) /\
  (exists rest,
     (fun req => searchParams (req_url req)) <$>
       sent_requests
         (trace (snd (alone env tid
                            (listEvents this "primary" (Some "2024-01-01T00:00:00Z")
                                        None None None None None None) s))) =
     ((fun req => searchParams (req_url req)) <$> sent_requests (trace s)) ++
     [("timeMin", "2024-01-01T00:00:00Z")] :: rest).
Proof.
  split.
  - intros calendarId timeMin timeMax q maxResults pageToken singleEvents orderBy.
    unfold listEvents. do 2 eexists. split; [apply request_sends|].
    unfold query_get, query_keys, built_request, build_url, listEvents_names.
    cbn [req_url searchParams].
    split_truthy; cbn;
      repeat (split; [reflexivity|]);
      (split; apply (bool_decide_unpack _); vm_compute; exact I).
  - unfold listEvents. cbn [truthy_str truthy_num]. rewrite request_sends.
    eexists. rewrite fmap_app. cbn. reflexivity.
Qed.
End ListEventsQuery.

(** * Further properties of the client and of the facade *)

(** ** What an operation sends *)

Section Sends.
Variable env : Env.

Lemma drop_app_length {A} (l k : list A) : drop (length l) (l ++ k) = k.
Proof. induction l as [|a l IH]; cbn; auto. Qed.

(** Every operation is one call of [request], whose request is the first
    the operation hands to [fetch]. *)
Lemma perform_call (this : GoogleCalendarClient) (op : Operation) :
  exists method path body params,
    first_fetch (perform this op) = Some (built_request this method path body params) /\
    forall tid s,
      alone env tid (perform this op) s =
      (map_outcome (result_of op)
                   (fst (alone env tid (request this method path body params) s)),
       snd (alone env tid (request this method path body params) s)).
Proof.
  destruct op; cbn [perform];
    unfold listCalendars, getCalendar, listEvents, getEvent, createEvent,
           updateEvent, deleteEvent, quickAddEvent, getFreeBusy, listColors;
    do 4 eexists; (split; [reflexivity|]); intros tid s; rewrite ?alone_bind;
    lazymatch goal with
    | |- ?lhs = (_, snd ?rhs) =>
        lazymatch lhs with
        | context [alone env tid (request ?c ?m ?p ?b ?ps) s] =>
            destruct (alone env tid (request c m p b ps) s) as [[a|e] s']
        end
    end; cbn; reflexivity.
Qed.

Lemma perform_new_sends (this : GoogleCalendarClient) (op : Operation)
    (tid : nat) (s : Proc) :
  exists req,
    first_fetch (perform this op) = Some req /\
    new_sends env tid (perform this op) s =
    req :: (if retried env (nsent s) req then [req] else []).
Proof.
  destruct (perform_call this op) as (method & path & body & params & Hreq & Hop).
  eexists. split; [exact Hreq|].
  unfold new_sends. rewrite Hop. cbn [snd]. rewrite request_sends.
  apply drop_app_length.
Qed.
End Sends.

Section SentRequests.
Variable env : Env.
Variable this : GoogleCalendarClient.
Variables (tid : nat) (s : Proc).


Ltac the_request op :=
  destruct (perform_new_sends env this op tid s) as (req & Hreq & Hnew);
  exists req; split; [exact Hnew|].

(** X2: every request the client sends, the retry included, carries the
    bearer token of the instance and the JSON content type, and no other
    header. *)
Theorem every_send_is_authorized (op : Operation) :
  exists req,
    new_sends env tid (perform this op) s =
    req :: (if retried env (nsent s) req then [req] else []) /\
    init_headers (req_options req) =
    [("Authorization", "Bearer " +:+ accessToken this);
     ("Content-Type", "application/json")].
Proof.
  the_request op.
  destruct op; cbn in Hreq; injection Hreq as <-; reflexivity.
Qed.

(** X4: the client sends the payload it is given as it is given: the event
    of [createEvent] and [updateEvent] and the query of [getFreeBusy] are
    the body, untouched, and the seven other operations send no body. *)
Theorem payload_is_passed_through (op : Operation) :
  exists req,
    new_sends env tid (perform this op) s =
    req :: (if retried env (nsent s) req then [req] else []) /\
    init_body (req_options req) =
    match op with
    | CreateEvent _ event => Some (EventBody event)
    | UpdateEvent _ _ event => Some (EventBody event)
    | GetFreeBusy query => Some (JsonBody query)
    | _ => None
    end.
Proof.
  the_request op.
  destruct op; cbn in Hreq; injection Hreq as <-; reflexivity.
Qed.

(** X5: [quickAddEvent] sends its text as the one query parameter [text],
    also when the text is empty, in a POST without a body. *)
Theorem quickAdd_sends_text_in_query (calendarId text : string) :
  exists req,
    new_sends env tid (perform this (QuickAddEvent calendarId text)) s =
    req :: (if retried env (nsent s) req then [req] else []) /\
    searchParams (req_url req) = [("text", text)] /\
    init_method (req_options req) = "POST" /\
    init_body (req_options req) = None.
Proof.
  the_request (QuickAddEvent calendarId text).
  cbn in Hreq; injection Hreq as <-; repeat split; reflexivity.
Qed.

(** X6: [listCalendars] sends the page token as the one query parameter
    [pageToken] when it is a non-empty string; without a token, or with
    the empty string, it sends no query at all. *)
Theorem listCalendars_query (pageToken : option string) :
  exists req,
    new_sends env tid (perform this (ListCalendars pageToken)) s =
    req :: (if retried env (nsent s) req then [req] else []) /\
    searchParams (req_url req) =
    match pageToken with
    | Some (String c t) => [("pageToken", String c t)]
    | _ => []
    end.
Proof.
  the_request (ListCalendars pageToken).
  destruct pageToken as [[|c t]|]; cbn in Hreq; injection Hreq as <-; reflexivity.
Qed.
End SentRequests.

(** ** How an operation settles *)

Section SettlingJson.
Variable env : Env.
Variable this : GoogleCalendarClient.
Variable op : Operation.
Variables (tid : nat) (s : Proc).
Variables r1 r : Response.
Hypothesis first_answer : forall req, serve env (nsent s) req = Responded r1.
Hypothesis last_answer :
  (status r1 <> 429 /\ r = r1) \/
  (status r1 = 429 /\ forall req, serve env (S (nsent s)) req = Responded r).
Hypothesis success : ok r = true.
Hypothesis has_content : status r <> 204.

(** X7: a success response other than 204 whose body parses resolves the
    operation with the parsed value, unchanged ([deleteEvent]: with
    nothing). *)
Theorem parsed_body_is_returned_unchanged (j : Json) :
  json_parse env (body_text r) = Parsed j ->
  fst (alone env tid (perform this op) s) = Resolved (result_of op j).
Proof.
  intros Hparse.
  destruct (perform_concludes env this op tid s r1 r first_answer last_answer)
    as (req & p & -> & _ & _).
  unfold conclude. rewrite success. cbn [negb].
  destruct (Z.eqb_spec (status r) 204) as [|_]; [contradiction|].
  rewrite Hparse. reflexivity.
Qed.

(** X8: only 204 is taken as a success without content: any other success
    response whose body is not JSON makes the operation fail, [deleteEvent]
    included, with the error of the parser. *)
Theorem unparsable_success_rejects (e : Error) :
  json_parse env (body_text r) = ParseError e ->
  fst (alone env tid (perform this op) s) = Rejected e.
Proof.
  intros Hparse.
  destruct (perform_concludes env this op tid s r1 r first_answer last_answer)
    as (req & p & -> & _ & _).
  unfold conclude. rewrite success. cbn [negb].
  destruct (Z.eqb_spec (status r) 204) as [|_]; [contradiction|].
  rewrite Hparse. reflexivity.
Qed.
End SettlingJson.

Section NetworkFailure.
Variable env : Env.
Variable this : GoogleCalendarClient.
Variable op : Operation.
Variables (tid : nat) (s : Proc).
Variable e : Error.

(** X9: a network failure is passed on as it is and never retried. When
    the send fails, the operation rejects with that very error after that
    one send; when the retry after a 429 fails, it rejects with that very
    error after those two sends. In both cases no body is read. *)
Theorem network_failure_is_passed_on (after_429 : bool) :
  (if after_429
   then exists r1, status r1 = 429 /\
                   (forall req, serve env (nsent s) req = Responded r1) /\
                   (forall req, serve env (S (nsent s)) req = NetworkError e)
   else forall req, serve env (nsent s) req = NetworkError e) ->
  fst (alone env tid (perform this op) s) = Rejected e /\
  nsent (snd (alone env tid (perform this op) s)) =
    (if after_429 then S (S (nsent s)) else S (nsent s)) /\
  length (new_sends env tid (perform this op) s) =
    (if after_429 then 2%nat else 1%nat) /\
  List.filter reads_body (trace (snd (alone env tid (perform this op) s))) =
  List.filter reads_body (trace s).
Proof.
  intros Hnet.
  destruct (perform_new_sends env this op tid s) as (req0 & _ & Hnew).
  rewrite Hnew. unfold retried.
  destruct (perform_alone env this op) as (method & path & body & params & Hop).
  rewrite Hop, request_alone. cbn [fst snd].
  destruct after_429.
  - destruct Hnet as (r1 & H429 & Hfirst & Hsecond).
    rewrite !Hfirst, H429, Hsecond. cbn.
    split; [reflexivity|]. split; [reflexivity|]. split; [reflexivity|].
    rewrite !List.filter_app, gate_events_no_body. cbn.
    rewrite !app_nil_r. reflexivity.
  - rewrite !Hnet. cbn.
    split; [reflexivity|]. split; [reflexivity|]. split; [reflexivity|].
    rewrite !List.filter_app, gate_events_no_body. cbn.
    rewrite app_nil_r. reflexivity.
Qed.
End NetworkFailure.

(** ** The rate gate *)

(** X10: [rateLimit] reads the timestamp once. When 100 ms or more have
    passed since it, it sets no timer and returns at once; otherwise it
    sets exactly one timer, for the rest of the interval. In both cases it
    writes the clock at its return into the timestamp, and it sends
    nothing. *)
Theorem rateLimit_sets_the_remaining_wait (env : Env) (tid : nat) (s : Proc) :
  let elapsed := now s - lastRequestTime s in
  exists s',
    alone env tid rateLimit s = (Resolved tt, s') /\
    trace s' =
      trace s ++
      EvRead tid (now s) (lastRequestTime s)
      :: (if elapsed <? RATE_LIMIT_DELAY_MS
          then [EvTimer tid (now s) (Num (RATE_LIMIT_DELAY_MS - elapsed))]
          else [])
      ++ [EvWrite tid (now s') (now s')] /\
    lastRequestTime s' = now s' /\
    now s <= now s' /\
    (if elapsed <? RATE_LIMIT_DELAY_MS then True else now s' = now s) /\
    nsent s' = nsent s /\
    send_times (trace s') = send_times (trace s).
Proof.
  intros elapsed. rewrite rateLimit_alone. eexists. split; [reflexivity|].
  cbn [trace now lastRequestTime nsent].
  split; [reflexivity|]. split; [reflexivity|].
  split; [apply gate_open_spec|].
  split; [unfold gate_open; fold elapsed;
          destruct (elapsed <? RATE_LIMIT_DELAY_MS); auto|].
  split; [reflexivity|].
  rewrite send_times_app, (proj2 (gate_events_no_send env tid s)), app_nil_r.
  reflexivity.
Qed.

(** ** [Retry-After] in seconds *)

Lemma digit_of_pretty_char (d : N) :
  (d < 10)%N -> digit_of (pretty_N_char d) = Some (Z.of_N d).
Proof.
  intros Hd.
  assert (d = 0 \/ d = 1 \/ d = 2 \/ d = 3 \/ d = 4 \/ d = 5 \/ d = 6 \/ d = 7
          \/ d = 8 \/ d = 9)%N as Hcases by lia.
  repeat (destruct Hcases as [->|Hcases]; [reflexivity|]). subst. reflexivity.
Qed.

(** The digits of a positive number, read from the left, give the number
    back, after whatever was read before. *)
Lemma leading_digits_pretty_go (x : N) :
  (0 < x)%N ->
  forall s acc,
  exists p, leading_digits acc (pretty_N_go x s) =
            leading_digits (Some (p * default 0 acc + Z.of_N x)) s.
Proof.
  induction (N.lt_wf_0 x) as [x _ IH]. intros Hpos s acc.
  rewrite pretty_N_go_step by exact Hpos.
  assert (Hd : (x `mod` 10 < 10)%N) by (apply N.mod_lt; lia).
  assert (Hx : Z.of_N x = 10 * Z.of_N (x `div` 10) + Z.of_N (x `mod` 10)).
  { rewrite (N.div_mod x 10) at 1 by lia. lia. }
  destruct (N.eq_dec (x `div` 10)%N 0%N) as [Hzero|Hnz].
  - rewrite Hzero, pretty_N_go_0. cbn [leading_digits].
    rewrite digit_of_pretty_char by exact Hd.
    exists 10. f_equal. f_equal. rewrite Hx, Hzero. lia.
  - destruct (IH (x `div` 10)%N) with (s := String (pretty_N_char (x `mod` 10)) s)
                                      (acc := acc) as [p Hp].
    + apply N.div_lt; lia.
    + apply N.neq_0_lt_0. exact Hnz.
    + rewrite Hp. cbn [leading_digits].
      rewrite digit_of_pretty_char by exact Hd.
      exists (10 * p). f_equal. f_equal. cbn [default from_option id]. rewrite Hx. lia.
Qed.

(** A positive number is printed with a digit in front. *)
Lemma pretty_go_head (x : N) :
  (0 < x)%N ->
  forall s, exists d r, (d < 10)%N /\ pretty_N_go x s = String (pretty_N_char d) r.
Proof.
  induction (N.lt_wf_0 x) as [x _ IH]. intros Hpos s.
  rewrite pretty_N_go_step by exact Hpos.
  destruct (N.eq_dec (x `div` 10)%N 0%N) as [Hzero|Hnz].
  - rewrite Hzero, pretty_N_go_0. exists (x `mod` 10)%N. eexists.
    split; [apply N.mod_lt; lia|reflexivity].
  - apply IH; [apply N.div_lt; lia|apply N.neq_0_lt_0; exact Hnz].
Qed.

Lemma parseInt_digit_first (d : N) (r : string) :
  (d < 10)%N ->
  parseInt (String (pretty_N_char d) r) =
  match leading_digits None (String (pretty_N_char d) r) with
  | Some n => double_of n
  | None => NaN
  end.
Proof.
  intros Hd.
  assert (d = 0 \/ d = 1 \/ d = 2 \/ d = 3 \/ d = 4 \/ d = 5 \/ d = 6 \/ d = 7
          \/ d = 8 \/ d = 9)%N as Hcases by lia.
  assert (Hsign : forall o : option Z,
            match o with Some n => double_of (1 * n) | None => NaN end =
            match o with Some n => double_of n | None => NaN end).
  { intros [n|]; [f_equal; lia|reflexivity]. }
  repeat (destruct Hcases as [->|Hcases]; [unfold parseInt; cbn; apply Hsign|]).
  subst. unfold parseInt. cbn. apply Hsign.
Qed.

Lemma parseInt_pretty_positive (x : positive) :
  parseInt (pretty (Npos x)) = double_of (Zpos x) /\
  leading_digits None (pretty (Npos x)) = Some (Zpos x) /\
  pretty (Npos x) <> "".
Proof.
  unfold pretty, pretty_N. destruct (decide (N.pos x = 0%N)) as [|_]; [lia|].
  destruct (pretty_go_head (Npos x)) with (s := "") as (d & r & Hd & Hhead); [lia|].
  destruct (leading_digits_pretty_go (Npos x)) with (s := "") (acc := @None Z)
    as [p Hp]; [lia|].
  cbn [leading_digits default from_option id] in Hp.
  replace (p * 0 + Z.of_N (N.pos x)) with (Z.pos x) in Hp by lia.
  split; [|split; [exact Hp|rewrite Hhead; discriminate]].
  rewrite Hhead in *. rewrite parseInt_digit_first by exact Hd.
  rewrite Hp. reflexivity.
Qed.

(** What [parseInt] reads from the decimal numeral of an integer is the
    double of that integer. *)
Lemma parseInt_pretty (z : Z) : parseInt (pretty z) = double_of z /\ pretty z <> "".
Proof.
  destruct z as [|x|x]; unfold pretty, pretty_Z.
  - split; [reflexivity|discriminate].
  - destruct (parseInt_pretty_positive x) as (Hp & _ & Hne). split; assumption.
  - destruct (parseInt_pretty_positive x) as (_ & Hd & _).
    split; [|discriminate].
    unfold parseInt. change ("-" +:+ pretty x) with (String "-"%char (pretty (Npos x))).
    cbn [skip_spaces]. change (is_space "-"%char) with false. cbn iota.
    change (pretty x) with (pretty (Npos x)). rewrite Hd. f_equal.
Qed.

Lemma double_of_times_1000 (n : Z) :
  JSNum_mul (double_of n) 1000 = double_of (n * 1000).
Proof.
  unfold double_of.
  destruct (Z.leb_spec (- MAX_SAFE) n), (Z.leb_spec n MAX_SAFE);
    cbn [andb JSNum_mul]; unfold double_of;
    destruct (Z.leb_spec (- MAX_SAFE) (n * 1000)),
             (Z.leb_spec (n * 1000) MAX_SAFE);
    cbn [andb]; try reflexivity; unfold MAX_SAFE in *; lia.
Qed.

(** X13: a [Retry-After] header that holds the decimal numeral of [n]
    seconds gives the delay [n * 1000] as a double: exactly that when it
    is within 2^53 in magnitude. The timer is then set for that delay when
    [n] is between 1 and 2147483, and gets the least delay, 1 ms,
    otherwise: for 0, for a negative number and for more than 2147483
    seconds. *)
Theorem retry_after_seconds (r : Response) (n : Z) :
  headers_get r "Retry-After" = Some (pretty n) ->
  retry_delay r = double_of (n * 1000) /\
  timer_ms (retry_delay r) =
  if (1 <=? n) && (n <=? 2147483) then n * 1000 else 1.
Proof.
  intros Hget. destruct (parseInt_pretty n) as [Hparse Hne].
  assert (Hdelay : retry_delay r = double_of (n * 1000)).
  { unfold retry_delay. rewrite Hget.
    destruct (pretty n) as [|a v] eqn:Hpretty; [contradiction|].
    cbn [truthy_str from_option id]. rewrite Hparse. apply double_of_times_1000. }
  split; [exact Hdelay|]. rewrite Hdelay. unfold double_of, timer_ms.
  destruct (Z.leb_spec 1 n), (Z.leb_spec n 2147483),
           (Z.leb_spec (- MAX_SAFE) (n * 1000)),
           (Z.leb_spec (n * 1000) MAX_SAFE); cbn [andb];
    try reflexivity;
    try (destruct (Z.leb_spec 1 (n * 1000)), (Z.leb_spec (n * 1000) TIMEOUT_MAX);
         cbn [andb]);
    unfold MAX_SAFE, TIMEOUT_MAX in *; lia.
Qed.

(** ** The tools *)

Section Tools.
Variable env : Env.

(** A handler settles as its client call does, wrapped. *)
Lemma handler_alone {A} (tid : nat) (p : Async A) (f : A -> ToolResult) (s : Proc) :
  alone env tid
        (try_catch (bind p (fun a => Return (f a)))
                   (fun error => Return (errorResult error))) s =
  (Resolved match fst (alone env tid p s) with
            | Resolved a => f a
            | Rejected e => errorResult e
            end,
   snd (alone env tid p s)).
Proof.
  rewrite alone_try_catch, alone_bind.
  destruct (alone env tid p s) as [[a|e] s']; reflexivity.
Qed.

Ltac run_tool :=
  unfold gcal_list_calendars, gcal_get_calendar, gcal_list_events, gcal_get_event,
         gcal_update_event, gcal_delete_event, gcal_quick_add_event,
         gcal_list_colors, getClient;
  cbn [constructor truthy_str negb from_option id];
  rewrite handler_alone; cbn [perform]; rewrite alone_bind.

(** X14: a tool never throws. On a server registered with a non-empty
    token it leaves the process as the client operation does and answers
    with exactly one result: when the operation fails, the text
    ["Error: "] followed by the message of the error, flagged as an error;
    when it succeeds, the stringified value, not flagged. *)
Theorem tool_never_throws (c : ascii) (t : string) (call : ToolCall)
    (tid : nat) (s : Proc) :
  let token := String c t in
  let run := alone env tid (perform (mkClient token) (tool_operation call)) s in
  exists result,
    alone env tid (handle token call) s = (Resolved result, snd run) /\
    match fst run with
    | Rejected e => result = mkToolResult (Plain ("Error: " +:+ message e)) true
    | Resolved v =>
        isError result = false /\
        forall j, v = Some j -> content_text result = Stringified j
    end.
Proof.
  intros token run. subst run token.
  destruct call; cbn [handle tool_operation]; run_tool;
    lazymatch goal with
    | |- context [alone env tid ?p s] =>
        lazymatch type of p with
        | Async (option Json) => fail
        | _ => destruct (alone env tid p s) as [[val|err] s']
        end
    end; cbn; eexists; (split; [reflexivity|]); cbn;
    try reflexivity; (split; [reflexivity|]); intros j Hj;
    try discriminate; injection Hj as <-; reflexivity.
Qed.

(** X15: the delete tool answers a deletion that succeeded with the
    sentence that names the event and the calendar, whatever the client
    resolved with, and a failed one with the text of the error. *)
Theorem delete_tool_answer (c : ascii) (t : string) (calendarId eventId : string)
    (tid : nat) (s : Proc) :
  let token := String c t in
  let run := alone env tid (perform (mkClient token)
                                    (DeleteEvent calendarId eventId)) s in
  alone env tid (handle token (CallDeleteEvent calendarId eventId)) s =
  (Resolved match fst run with
            | Resolved _ =>
                mkToolResult
                  (Plain ("Event " +:+ eventId +:+ " deleted successfully from calendar "
                          +:+ calendarId)) false
            | Rejected e => mkToolResult (Plain ("Error: " +:+ message e)) true
            end,
   snd run).
Proof.
  intros token run. subst run token. cbn [handle]. run_tool.
  destruct (alone env tid (deleteEvent _ calendarId eventId) s) as [[a|e] s'];
    reflexivity.
Qed.

(** X16: on a server registered with an empty token every tool answers
    with the configuration error and leaves the process untouched: it
    sends nothing and does not touch the timestamp. *)
Theorem no_tool_runs_without_token (call : ToolCall) (tid : nat) (s : Proc) :
  alone env tid (handle "" call) s =
  (Resolved (mkToolResult (Plain "Error: GOOGLE_ACCESS_TOKEN is required") true), s).
Proof. destruct call; reflexivity. Qed.
End Tools.

(** ** Instances of the properties that have hypotheses *)

Lemma parsed_body_is_returned_unchanged_witness :
  fst (alone (scripted [Responded ok_empty] 5) 0
             (perform a_client (GetCalendar "primary")) (fresh 5000)) =
  Resolved (Some (JObj [])).
Proof.
  apply (parsed_body_is_returned_unchanged (scripted [Responded ok_empty] 5) a_client
           (GetCalendar "primary") 0 (fresh 5000) ok_empty ok_empty).
  - intros req. reflexivity.
  - left. split; [vm_compute; discriminate|reflexivity].
  - reflexivity.
  - vm_compute. discriminate.
  - reflexivity.
Defined.

Lemma unparsable_success_rejects_witness :
  fst (alone unparsable 0 (perform a_client (DeleteEvent "primary" "abc"))
             (fresh 5000)) = Rejected unexpected_end.
Proof.
  apply (unparsable_success_rejects unparsable a_client (DeleteEvent "primary" "abc")
           0 (fresh 5000) (reply 200 [] "") (reply 200 [] "")).
  - intros req. reflexivity.
  - left. split; [vm_compute; discriminate|reflexivity].
  - reflexivity.
  - vm_compute. discriminate.
  - reflexivity.
Defined.

Lemma network_failure_is_passed_on_witness :
  let failing := scripted [NetworkError fetch_failed] 5 in
  let run := alone failing 0 (perform a_client ListColors) (fresh 5000) in
  let failing_retry :=
    scripted [Responded (throttled None); NetworkError fetch_failed] 5 in
  let run_retry := alone failing_retry 0 (perform a_client ListColors) (fresh 5000) in
  (fst run = Rejected fetch_failed /\
   nsent (snd run) = 1%nat /\
   length (new_sends failing 0 (perform a_client ListColors) (fresh 5000)) = 1%nat /\
   List.filter reads_body (trace (snd run)) = []) /\
  (fst run_retry = Rejected fetch_failed /\
   nsent (snd run_retry) = 2%nat /\
   length (new_sends failing_retry 0 (perform a_client ListColors) (fresh 5000)) = 2%nat /\
   List.filter reads_body (trace (snd run_retry)) = []).
Proof.
  split.
  - apply (network_failure_is_passed_on (scripted [NetworkError fetch_failed] 5)
             a_client ListColors 0 (fresh 5000) fetch_failed false).
    intros req. reflexivity.
  - apply (network_failure_is_passed_on
             (scripted [Responded (throttled None); NetworkError fetch_failed] 5)
             a_client ListColors 0 (fresh 5000) fetch_failed true).
    exists (throttled None). repeat split; intros; reflexivity.
Defined.

Lemma retry_after_seconds_witness :
  retry_delay (throttled (Some "120")) = Num 120000 /\
  timer_ms (retry_delay (throttled (Some "120"))) = 120000.
Proof.
  apply (retry_after_seconds (throttled (Some "120")) 120).
  reflexivity.
Defined.
